(** * Voice Interaction POC: the WebSocket acknowledgment handler

    A shallow embedding of [main.py]: the plain HTTP route on [/ws]
    ([websocket_handshake_info]) and the WebSocket handler
    ([websocket_endpoint]), run against a scripted connection.

    The handler is a coroutine whose only interaction with the outside is
    through the methods of the [WebSocket] object.  The connection is
    modelled as a [world]: what each successive [receive_bytes] will find
    (an ASGI event delivered by the client, or an exception thrown into the
    coroutine while it waits) and the log of every call the handler has made
    so far.  Writes to the connection ([accept], [send_text], [close]) are
    recorded and return [None]: transport failures are outside the model. *)

From Stdlib Require Import List String Ascii ZArith Lia Bool.
From Stdlib Require Import DecimalString DecimalZ.
Import ListNotations.
Open Scope string_scope.
Open Scope Z_scope.
Open Scope list_scope.

(** ** Python values and exceptions *)

Definition bytes := list Byte.byte.

(** The exceptions the handler can observe.  [except WebSocketDisconnect]
    is tried first, [except Exception] second; an exception that derives
    from [BaseException] only (asyncio's [CancelledError]) is caught by
    neither clause. *)
Inductive exn : Type :=
| WebSocketDisconnect (code : Z)
| PyException (cls : string) (str : string)
| PyBaseException (cls : string).

(** [KeyError('bytes')], whose [str] is the [repr] of the key. *)
Definition KeyError_bytes : exn := PyException "KeyError" "'bytes'".

(** What [len(None)] raises. *)
Definition TypeError_len_None : exn :=
  PyException "TypeError" "object of type 'NoneType' has no len()".

(** The outcome of one awaited call: the value it returns (the handler only
    ever looks at the [Optional[bytes]] returned by [receive_bytes]) or the
    exception it raises. *)
Inductive outcome : Type :=
| Ok (v : option bytes)
| Err (e : exn).

(** ** The connection *)

(** An ASGI event delivered to the application.  In a [websocket.receive]
    event each of the keys [bytes] and [text] is missing ([None]), present
    with the value [None] ([Some None]) or present with a payload. *)
Inductive asgi_message : Type :=
| websocket_receive (bytes_key : option (option bytes))
                    (text_key : option (option string))
| websocket_disconnect (code : Z).

(** A binary frame and a text frame as the server delivers them. *)
Definition binary_frame (payload : bytes) : asgi_message :=
  websocket_receive (Some (Some payload)) None.

Definition text_frame (text : string) : asgi_message :=
  websocket_receive None (Some (Some text)).

(** A [websocket.receive] event that carries text and no bytes. *)
Definition is_text_frame (m : asgi_message) : bool :=
  match m with
  | websocket_receive None (Some (Some _)) => true
  | websocket_receive (Some None) (Some (Some _)) => true
  | _ => false
  end.

(** What one [await websocket.receive_bytes()] finds: the next event from
    the client, or an exception thrown into the handler at that suspension
    point (a failure inside the server stack, a cancellation). *)
Inductive incoming : Type :=
| Delivered (m : asgi_message)
| Thrown (e : exn).

(** The methods of the [WebSocket] object the handler calls. *)
Inductive call : Type :=
| Accept
| SendText (data : string)
| ReceiveBytes
| Close (code : Z) (reason : string).

(** One entry of the log: a call with its outcome, or a line printed. *)
Inductive event : Type :=
| Did (c : call) (o : outcome)
| Printed (line : string).

Record world : Type := mkWorld {
  inbox : list incoming;
  log : list event
}.

(** ** The handler monad: state, exceptions and suspension *)

Inductive result (A : Type) : Type :=
| Returned (a : A)
| Raised (e : exn)
| Awaiting
| OutOfFuel.

Arguments Returned {A} a.
Arguments Raised {A} e.
Arguments Awaiting {A}.
Arguments OutOfFuel {A}.

Definition M (A : Type) : Type := world -> result A * world.

Definition ret {A : Type} (a : A) : M A := fun w => (Returned a, w).

Definition raise {A : Type} (e : exn) : M A := fun w => (Raised e, w).

Definition bind {A B : Type} (m : M A) (k : A -> M B) : M B :=
  fun w =>
    match m w with
    | (Returned a, w') => k a w'
    | (Raised e, w') => (Raised e, w')
    | (Awaiting, w') => (Awaiting, w')
    | (OutOfFuel, w') => (OutOfFuel, w')
    end.

Notation "x <- m ;; k" := (bind m (fun x => k))
  (at level 61, m at next level, right associativity).
Notation "m ;; k" := (bind m (fun _ => k))
  (at level 61, right associativity).

(** [try: body except ...: handler]; the handler gives [None] for an
    exception no clause matches, which then propagates. *)
Definition try_except {A : Type} (body : M A)
    (handler : exn -> option (M A)) : M A :=
  fun w =>
    match body w with
    | (Raised e, w') =>
        match handler e with
        | Some h => h w'
        | None => (Raised e, w')
        end
    | r => r
    end.

(** [while True: body]. *)
Fixpoint while_true (fuel : nat) (body : M unit) : M unit :=
  match fuel with
  | O => fun w => (OutOfFuel, w)
  | S fuel' => body ;; while_true fuel' body
  end.

(** ** The WebSocket methods *)

Definition record (ev : event) (w : world) : world :=
  mkWorld (inbox w) (log w ++ [ev]).

(** A write to the connection ([accept], [send_text], [close]). *)
Definition server_call (c : call) : M unit :=
  fun w => (Returned tt, record (Did c (Ok None)) w).

Definition accept : M unit := server_call Accept.
Definition send_text (data : string) : M unit := server_call (SendText data).
Definition close (code : Z) (reason : string) : M unit :=
  server_call (Close code reason).

(** [WebSocket.receive_bytes] on one delivered event: a disconnect event
    raises [WebSocketDisconnect], otherwise the result is
    [message["bytes"]]. *)
Definition receive_bytes_of (m : asgi_message) : outcome :=
  match m with
  | websocket_disconnect code => Err (WebSocketDisconnect code)
  | websocket_receive None _ => Err KeyError_bytes
  | websocket_receive (Some v) _ => Ok v
  end.

Definition received (i : incoming) : outcome :=
  match i with
  | Delivered m => receive_bytes_of m
  | Thrown e => Err e
  end.

(** With nothing left to receive the handler stays suspended in
    [receive_bytes]. *)
Definition receive_bytes : M (option bytes) :=
  fun w =>
    match inbox w with
    | [] => (Awaiting, w)
    | i :: rest =>
        let o := received i in
        let w' := mkWorld rest (log w ++ [Did ReceiveBytes o]) in
        match o with
        | Ok v => (Returned v, w')
        | Err e => (Raised e, w')
        end
    end.

Definition print (line : string) : M unit :=
  fun w => (Returned tt, record (Printed line) w).

(** ** Builtins *)

Definition len (data : option bytes) : M Z :=
  match data with
  | Some b => ret (Z.of_nat (List.length b))
  | None => raise TypeError_len_None
  end.

(** [str] of an [int], as an f-string formats it. *)
Definition str_int (n : Z) : string := NilZero.string_of_int (Z.to_int n).

(** ** main.py *)






Definition welcome : string :=
  "Connection established. Send audio data as binary messages.".

Definition response_msg (chunk_size : Z) : string :=
  "Received " ++ str_int chunk_size ++ " bytes of audio data.".

Definition loop_body : M unit :=
  data <- receive_bytes ;;
  chunk_size <- len data ;;
  send_text (response_msg chunk_size).

Definition error_msg (e_str : string) : string :=
  "An error occurred: " ++ e_str.

Definition handler (e : exn) : option (M unit) :=
  match e with
  | WebSocketDisconnect _ => Some (print "Client disconnected.")
  | PyException _ e_str =>
      Some (send_text (error_msg e_str) ;;
            close 1011 "Internal server error")
  | PyBaseException _ => None
  end.

(** [@app.websocket("/ws")].  The loop is given one more round than there
    are events to receive: every round that does not leave the loop takes
    one event off the inbox (see [while_true_enough_fuel]). *)
Definition websocket_endpoint : M unit :=
  accept ;;
  send_text welcome ;;
  try_except
    (fun w => while_true (S (List.length (inbox w))) loop_body w)
    handler.

(** Run the handler on a fresh connection. *)
Definition run (msgs : list incoming) : result unit * world :=
  websocket_endpoint (mkWorld msgs []).

Definition trace (msgs : list incoming) : list event := log (snd (run msgs)).

Definition status (msgs : list incoming) : result unit := fst (run msgs).

(** The client sends binary frames and nothing else. *)
Definition audio (frames : list bytes) : list incoming :=
  map (fun d => Delivered (binary_frame d)) frames.

(** The text frames the server has sent, in order. *)
Fixpoint sent_texts (evs : list event) : list string :=
  match evs with
  | [] => []
  | Did (SendText s) (Ok _) :: evs' => s :: sent_texts evs'
  | _ :: evs' => sent_texts evs'
  end.

(** The acknowledgments: every text frame after the welcome. *)
Definition acks (msgs : list incoming) : list string :=
  tl (sent_texts (trace msgs)).

(** A write: a text frame or a close frame. *)
Definition is_write (ev : event) : bool :=
  match ev with
  | Did (SendText _) _ => true
  | Did (Close _ _) _ => true
  | _ => false
  end.

(** ** What one run of the handler does

    The events of the receive loop, its exit and what is left unread, as
    functions of the inbox; [while_true_spec] shows that the loop computes
    exactly these. *)

Fixpoint loop_events (msgs : list incoming) : list event :=
  match msgs with
  | [] => []
  | i :: rest =>
      Did ReceiveBytes (received i) ::
      match received i with
      | Ok (Some d) =>
          Did (SendText (response_msg (Z.of_nat (List.length d)))) (Ok None)
          :: loop_events rest
      | _ => []
      end
  end.

Fixpoint loop_exit (msgs : list incoming) : result unit :=
  match msgs with
  | [] => Awaiting
  | i :: rest =>
      match received i with
      | Ok (Some _) => loop_exit rest
      | Ok None => Raised TypeError_len_None
      | Err e => Raised e
      end
  end.

Fixpoint loop_unread (msgs : list incoming) : list incoming :=
  match msgs with
  | [] => []
  | i :: rest =>
      match received i with
      | Ok (Some _) => loop_unread rest
      | _ => rest
      end
  end.

Definition handler_events (r : result unit) : list event :=
  match r with
  | Raised (WebSocketDisconnect _) => [Printed "Client disconnected."]
  | Raised (PyException _ e_str) =>
      [Did (SendText (error_msg e_str)) (Ok None);
       Did (Close 1011 "Internal server error") (Ok None)]
  | _ => []
  end.

Definition handler_exit (r : result unit) : result unit :=
  match r with
  | Raised (WebSocketDisconnect _) => Returned tt
  | Raised (PyException _ _) => Returned tt
  | r => r
  end.

Definition handshake : list event :=
  [Did Accept (Ok None); Did (SendText welcome) (Ok None)].

(** The frames the server has written: text frames and close frames. *)
Definition writes (evs : list event) : list event := filter is_write evs.

(** The exception, if any, that one round of the loop raises on [i]: the
    one [receive_bytes] raises, or the one [len] raises on [None]. *)
Definition round_raises (i : incoming) : option exn :=
  match received i with
  | Ok (Some _) => None
  | Ok None => Some TypeError_len_None
  | Err e => Some e
  end.

(** After [front] the handler is waiting, and what arrives next is
    answered by nothing at all: no write, and the handler keeps waiting. *)
Definition ignored (front : list incoming) (i : incoming) : Prop :=
  status (front ++ [i]) = Awaiting
  /\ writes (trace (front ++ [i])) = writes (trace front).

(** ** Reading an acknowledgment back

    What a client does with an acknowledgment: strip the fixed words and
    read the decimal numeral between them. *)

Fixpoint strip_prefix (p s : string) : option string :=
  match p, s with
  | EmptyString, _ => Some s
  | String a p', String b s' =>
      if Ascii.eqb a b then strip_prefix p' s' else None
  | String _ _, EmptyString => None
  end.

Definition is_digit (c : ascii) : bool :=
  match uint_of_char c (Some Decimal.Nil) with
  | Some _ => true
  | None => false
  end.

Fixpoint span_digits (s : string) : string * string :=
  match s with
  | EmptyString => (EmptyString, EmptyString)
  | String c s' =>
      if is_digit c
      then let (ds, r) := span_digits s' in (String c ds, r)
      else (EmptyString, s)
  end.

Definition byte_count_of (ack : string) : option Z :=
  match strip_prefix "Received " ack with
  | Some s =>
      let (ds, r) := span_digits s in
      if String.eqb r " bytes of audio data."
      then option_map Z.of_int (NilZero.int_of_string ds)
      else None
  | None => None
  end.

(** ** The plain HTTP route *)





(** The number of calls to [receive_bytes] that have completed. *)
Fixpoint receives (evs : list event) : nat :=
  match evs with
  | [] => O
  | Did ReceiveBytes _ :: evs' => S (receives evs')
  | _ :: evs' => receives evs'
  end.

(** ** client.py

    The test client talks to the handler over one connection.  Its state
    is what it has sent so far, how many of the server's text frames it has
    read, and the lines it has printed.  The handler's side of the
    connection is [run] on what the client has sent. *)

Record client : Type := mkClient {
  sent : list incoming;
  nread : nat;
  stdout : list string
}.

(** [recv] on a connection with nothing to read waits ([Blocked]) while
    the handler is waiting too, and raises [ConnectionClosed] once the
    handler is gone. *)
Inductive client_result (A : Type) : Type :=
| Done (a : A)
| Blocked
| ConnectionClosed.

Arguments Done {A} a.
Arguments Blocked {A}.
Arguments ConnectionClosed {A}.

Definition C (A : Type) : Type := client -> client_result A * client.

Definition cbind {A B : Type} (m : C A) (k : A -> C B) : C B :=
  fun st =>
    match m st with
    | (Done a, st') => k a st'
    | (Blocked, st') => (Blocked, st')
    | (ConnectionClosed, st') => (ConnectionClosed, st')
    end.

(** [await websocket.recv()]: the next text frame of the server. *)
Definition recv : C string :=
  fun st =>
    match nth_error (sent_texts (trace (sent st))) (nread st) with
    | Some text => (Done text, mkClient (sent st) (S (nread st)) (stdout st))
    | None =>
        match status (sent st) with
        | Awaiting => (Blocked, st)
        | _ => (ConnectionClosed, st)
        end
    end.

(** [await websocket.send(data)] with [data] a [bytes]: a binary frame. *)
Definition send (data : bytes) : C unit :=
  fun st =>
    (Done tt,
     mkClient (sent st ++ [Delivered (binary_frame data)]) (nread st)
       (stdout st)).

(** [await websocket.close()]: a normal closure, code 1000. *)
Definition client_close : C unit :=
  fun st =>
    (Done tt,
     mkClient (sent st ++ [Delivered (websocket_disconnect 1000)]) (nread st)
       (stdout st)).

(** [print("Server:", text)] *)
Definition print_server (text : string) : C unit :=
  fun st =>
    (Done tt,
     mkClient (sent st) (nread st)
       (stdout st ++ [("Server: " ++ text)%string])).

Definition test_client : C unit :=
  cbind recv (fun welcome =>
  cbind (print_server welcome) (fun _ =>
  cbind (send [Byte.x00; Byte.x01; Byte.x02; Byte.x03; Byte.x04]) (fun _ =>
  cbind recv (fun ack =>
  cbind (print_server ack) (fun _ =>
  cbind (send [Byte.x10; Byte.x20; Byte.x30]) (fun _ =>
  cbind recv (fun ack =>
  cbind (print_server ack) (fun _ =>
  client_close)))))))).

(** ** The run of the handler, characterised *)

(** One round of the loop. *)
Lemma loop_body_empty (l : list event) :
  loop_body (mkWorld [] l) = (Awaiting, mkWorld [] l).
Proof. reflexivity. Qed.

Lemma loop_body_step (i : incoming) (rest : list incoming) (l : list event) :
  loop_body (mkWorld (i :: rest) l)
  = match received i with
    | Ok (Some d) =>
        (Returned tt,
         mkWorld rest
           (l ++ [Did ReceiveBytes (received i);
                  Did (SendText (response_msg (Z.of_nat (List.length d))))
                      (Ok None)]))
    | Ok None =>
        (Raised TypeError_len_None,
         mkWorld rest (l ++ [Did ReceiveBytes (received i)]))
    | Err e =>
        (Raised e, mkWorld rest (l ++ [Did ReceiveBytes (received i)]))
    end.
Proof.
  unfold loop_body, bind, receive_bytes. simpl.
  destruct (received i) as [[d |] | e]; simpl; try reflexivity.
  unfold send_text, server_call, record. simpl.
  now rewrite <- app_assoc.
Qed.

Lemma while_true_S (fuel : nat) (body : M unit) (w : world) :
  while_true (S fuel) body w
  = match body w with
    | (Returned _, w') => while_true fuel body w'
    | (Raised e, w') => (Raised e, w')
    | (Awaiting, w') => (Awaiting, w')
    | (OutOfFuel, w') => (OutOfFuel, w')
    end.
Proof. reflexivity. Qed.

Lemma while_true_spec (msgs : list incoming) :
  forall (fuel : nat) (l : list event),
    (List.length msgs < fuel)%nat ->
    while_true fuel loop_body (mkWorld msgs l)
    = (loop_exit msgs, mkWorld (loop_unread msgs) (l ++ loop_events msgs)).
Proof.
  induction msgs as [| i rest IH]; intros fuel l Hfuel;
    (destruct fuel as [| fuel]; [simpl in Hfuel; lia |]);
    rewrite while_true_S.
  - rewrite loop_body_empty. simpl. now rewrite app_nil_r.
  - simpl in Hfuel. rewrite loop_body_step. simpl.
    destruct (received i) as [[d |] | e]; try reflexivity.
    rewrite IH by lia. now rewrite <- app_assoc.
Qed.

(** The loop never runs out of rounds when it is given more rounds than
    there are events to receive. *)
Lemma while_true_enough_fuel (w : world) (fuel : nat) :
  (List.length (inbox w) < fuel)%nat ->
  fst (while_true fuel loop_body w) <> OutOfFuel.
Proof.
  destruct w as [msgs l]. simpl. intros Hfuel.
  rewrite while_true_spec by assumption. simpl.
  induction msgs as [| i rest IH]; simpl; [discriminate |].
  destruct (received i) as [[d |] | e]; try discriminate.
  apply IH. simpl in Hfuel. lia.
Qed.

(** And any two such supplies of rounds give the same run. *)
Lemma while_true_fuel_irrelevant (w : world) (f1 f2 : nat) :
  (List.length (inbox w) < f1)%nat ->
  (List.length (inbox w) < f2)%nat ->
  while_true f1 loop_body w = while_true f2 loop_body w.
Proof.
  destruct w as [msgs l]. simpl. intros H1 H2.
  now rewrite !while_true_spec by assumption.
Qed.

Lemma run_spec (msgs : list incoming) :
  run msgs
  = (handler_exit (loop_exit msgs),
     mkWorld (loop_unread msgs)
       (handshake ++ loop_events msgs ++ handler_events (loop_exit msgs))).
Proof.
  cbv beta iota delta
    [run websocket_endpoint bind accept send_text server_call record
     try_except inbox log].
  change (([] ++ [Did Accept (Ok None)]) ++ [Did (SendText welcome) (Ok None)])
    with handshake.
  rewrite while_true_spec by (simpl; lia).
  destruct (loop_exit msgs) as [[] | [c | cls s | cls] | |]; simpl;
    rewrite ?app_nil_r; try reflexivity.
  cbv beta iota delta [bind send_text close server_call record inbox log].
  now rewrite <- !app_assoc.
Qed.

Lemma trace_spec (msgs : list incoming) :
  trace msgs
  = handshake ++ loop_events msgs ++ handler_events (loop_exit msgs).
Proof. unfold trace. now rewrite run_spec. Qed.

Lemma status_spec (msgs : list incoming) :
  status msgs = handler_exit (loop_exit msgs).
Proof. unfold status. now rewrite run_spec. Qed.

(** ** Reading an acknowledgment back: the proofs *)

Lemma span_digits_uint (d : Decimal.uint) (r : string) :
  span_digits (NilEmpty.string_of_uint d ++ String " " r)%string
  = (NilEmpty.string_of_uint d, String " " r).
Proof.
  induction d; simpl; try reflexivity; now rewrite IHd.
Qed.

Lemma span_digits_str_int (n : Z) (r : string) :
  0 <= n ->
  span_digits (str_int n ++ String " " r)%string = (str_int n, String " " r).
Proof.
  intros Hn. unfold str_int.
  destruct n as [| p | p]; [reflexivity | | lia].
  simpl. generalize (DecimalPos.Unsigned.to_uint_nonnil p).
  destruct (Pos.to_uint p) eqn:E; intros Hnil;
    [now destruct Hnil | ..];
    apply (span_digits_uint _ r).
Qed.

(** The numeral in an acknowledgment is the decimal writing of the count. *)
Lemma str_int_decimal (n : Z) :
  option_map Z.of_int (NilZero.int_of_string (str_int n)) = Some n.
Proof.
  unfold str_int. rewrite NilZero.isi.
  - simpl. now rewrite DecimalZ.of_to.
  - destruct n; simpl; try discriminate.
    intros [= H]. now apply (DecimalPos.Unsigned.to_uint_nonnil p).
  - destruct n; simpl; try discriminate.
    intros [= H]. now apply (DecimalPos.Unsigned.to_uint_nonnil p).
Qed.

Lemma byte_count_of_response_msg (n : Z) :
  0 <= n -> byte_count_of (response_msg n) = Some n.
Proof.
  intros Hn. unfold byte_count_of, response_msg. simpl.
  rewrite (span_digits_str_int n "bytes of audio data." Hn).
  simpl. apply str_int_decimal.
Qed.

(** ** Runs that extend a run still waiting for a frame *)

Lemma loop_app (front more : list incoming) :
  loop_exit front = Awaiting ->
  loop_events (front ++ more) = loop_events front ++ loop_events more
  /\ loop_exit (front ++ more) = loop_exit more
  /\ loop_unread (front ++ more) = loop_unread more.
Proof.
  induction front as [| i front IH]; simpl; intros Hwait.
  - auto.
  - destruct (received i) as [[d |] | e]; try discriminate.
    destruct (IH Hwait) as (Hev & Hex & Hun).
    now rewrite Hev, Hex, Hun.
Qed.

Lemma status_awaiting (msgs : list incoming) :
  status msgs = Awaiting <-> loop_exit msgs = Awaiting.
Proof.
  rewrite status_spec. split; [| now intros ->].
  destruct (loop_exit msgs) as [[] | [c | cls s | cls] | |]; simpl;
    congruence.
Qed.

Lemma run_continue (front more : list incoming) :
  status front = Awaiting ->
  trace (front ++ more)
  = trace front ++ loop_events more ++ handler_events (loop_exit more)
  /\ status (front ++ more) = handler_exit (loop_exit more)
  /\ inbox (snd (run (front ++ more))) = loop_unread more.
Proof.
  intros Hwait. apply status_awaiting in Hwait.
  destruct (loop_app front more Hwait) as (Hev & Hex & Hun).
  rewrite !trace_spec, status_spec, run_spec, Hev, Hex, Hun, Hwait. simpl.
  rewrite app_nil_r. repeat split.
  now rewrite <- !app_assoc.
Qed.

Lemma sent_texts_app (l1 l2 : list event) :
  sent_texts (l1 ++ l2) = sent_texts l1 ++ sent_texts l2.
Proof.
  induction l1 as [| ev l1 IH]; simpl; [reflexivity |].
  destruct ev as [[| s | | c r] [v | e] | line]; simpl; now rewrite ?IH.
Qed.

Lemma acks_continue (front more : list incoming) :
  status front = Awaiting ->
  acks (front ++ more)
  = acks front
    ++ sent_texts (loop_events more ++ handler_events (loop_exit more)).
Proof.
  intros Hwait. unfold acks.
  destruct (run_continue front more Hwait) as (-> & _).
  rewrite sent_texts_app, trace_spec. reflexivity.
Qed.

(** The exchange for a list of binary frames. *)
Lemma loop_audio (frames : list bytes) :
  loop_exit (audio frames) = Awaiting
  /\ sent_texts (loop_events (audio frames))
     = map (fun d => response_msg (Z.of_nat (List.length d))) frames.
Proof.
  induction frames as [| d frames [IHx IHs]]; simpl; auto.
  now rewrite IHs.
Qed.

Lemma writes_audio (frames : list bytes) :
  writes (loop_events (audio frames))
  = map (fun n => Did (SendText (response_msg (Z.of_nat n))) (Ok None))
        (map (@List.length Byte.byte) frames).
Proof.
  unfold writes.
  induction frames as [| d frames IH]; simpl; [reflexivity |].
  f_equal. exact IH.
Qed.

Lemma loop_body_raises (i : incoming) (rest : list incoming)
    (l : list event) :
  fst (loop_body (mkWorld (i :: rest) l))
  = match round_raises i with
    | Some e => Raised e
    | None => Returned tt
    end.
Proof.
  rewrite loop_body_step. unfold round_raises.
  now destruct (received i) as [[d |] | e].
Qed.

Lemma loop_raising (i : incoming) (rest : list incoming) (e : exn) :
  round_raises i = Some e ->
  loop_events (i :: rest) = [Did ReceiveBytes (received i)]
  /\ loop_exit (i :: rest) = Raised e
  /\ loop_unread (i :: rest) = rest.
Proof.
  unfold round_raises. simpl.
  destruct (received i) as [[d |] | e']; intros [= <-]; auto.
Qed.

Lemma error_round_spec
    (front : list incoming) (i : incoming) (rest : list incoming)
    (cls e_str : string) :
  status front = Awaiting ->
  round_raises i = Some (PyException cls e_str) ->
  trace (front ++ i :: rest)
  = trace front
    ++ [Did ReceiveBytes (received i);
        Did (SendText (error_msg e_str)) (Ok None);
        Did (Close 1011 "Internal server error") (Ok None)]
  /\ status (front ++ i :: rest) = Returned tt.
Proof.
  intros Hwait Hraise.
  destruct (run_continue front (i :: rest) Hwait) as (Htrace & Hstatus & _).
  destruct (loop_raising i rest _ Hraise) as (Hev & Hexit & _).
  rewrite Htrace, Hstatus, Hev, Hexit. simpl. auto.
Qed.

Lemma acks_audio (frames : list bytes) :
  acks (audio frames)
  = map (fun d => response_msg (Z.of_nat (List.length d))) frames
  /\ status (audio frames) = Awaiting.
Proof.
  destruct (loop_audio frames) as [Hexit Hsent]. split.
  - unfold acks. rewrite trace_spec, Hexit. simpl. now rewrite app_nil_r.
  - now apply status_awaiting.
Qed.

(** The handler never runs out of rounds: it is waiting for a frame, it
    has returned, or an exception left it. *)
Lemma run_never_out_of_fuel (msgs : list incoming) :
  status msgs <> OutOfFuel.
Proof.
  rewrite status_spec.
  induction msgs as [| i rest IH]; simpl; [discriminate |].
  destruct (received i) as [[d |] | [c | cls s | cls]]; simpl;
    try discriminate.
  exact IH.
Qed.

(** Every run is of one of two kinds: all that was delivered has been
    acknowledged and the handler is waiting, or the handler was waiting
    when the round for some [i] raised. *)
Lemma run_cases (msgs : list incoming) :
  status msgs = Awaiting
  \/ exists front i rest e,
       msgs = front ++ i :: rest
       /\ status front = Awaiting
       /\ round_raises i = Some e.
Proof.
  induction msgs as [| i rest IH].
  - now left.
  - destruct (round_raises i) as [e |] eqn:Hround.
    + right. exists [], i, rest, e. auto.
    + assert (Hone : status [i] = Awaiting).
      { apply status_awaiting. unfold round_raises in Hround. simpl.
        now destruct (received i) as [[d |] | e]. }
      destruct IH as [Hwait | (front & j & rest' & e & -> & Hwait & Hj)].
      * left. apply status_awaiting.
        apply status_awaiting in Hwait, Hone.
        destruct (loop_app [i] rest Hone) as (_ & Hexit & _).
        simpl app in Hexit. now rewrite Hexit.
      * right. exists (i :: front), j, rest', e. repeat split; auto.
        apply status_awaiting.
        apply status_awaiting in Hwait, Hone.
        destruct (loop_app [i] front Hone) as (_ & Hexit & _).
        simpl app in Hexit. now rewrite Hexit.
Qed.

(** ** The claims *)

(** C1, as stated, fails: the acknowledgments of two frames of the same
    length are the same text, so nothing read off an acknowledgment can be
    a sequence number that is 1 for the first frame and 2 for the second. *)
Lemma acks_carry_no_sequence_number :
  ~ exists seq_of : string -> Z,
      map seq_of (acks (audio [[Byte.x00]; [Byte.x01]])) = [1; 2].
Proof.
  intros [seq_of H]. vm_compute in H.
  injection H as H1 H2. rewrite H1 in H2. discriminate.
Qed.

(** C1, amended: for every sequence of N binary frames sent on one
    connection the server sends exactly N acknowledgment text frames, in the
    order the frames were received, and each acknowledgment carries the
    byte count of its frame; the text is determined by that byte count alone
    (there is no sequence number in it), and the handler is left waiting for
    the next frame. *)
Theorem acks_in_order_with_byte_counts (frames : list bytes) :
  acks (audio frames)
  = map (fun d => response_msg (Z.of_nat (List.length d))) frames
  /\ List.length (acks (audio frames)) = List.length frames
  /\ map byte_count_of (acks (audio frames))
     = map (fun d => Some (Z.of_nat (List.length d))) frames
  /\ status (audio frames) = Awaiting.
Proof.
  destruct (acks_audio frames) as [Hacks Hstatus].
  rewrite Hacks. repeat split.
  - now rewrite length_map.
  - rewrite map_map. apply map_ext. intros d.
    apply byte_count_of_response_msg. lia.
  - exact Hstatus.
Qed.

(** C2: whenever the handler is waiting for a frame and a binary frame with
    a payload of N bytes arrives, the next thing the server does is send the
    text frame "Received N bytes of audio data.", with N written in decimal,
    and it goes back to waiting. *)
Theorem ack_text_exact (front : list incoming) (payload : bytes) :
  status front = Awaiting ->
  trace (front ++ [Delivered (binary_frame payload)])
  = trace front
    ++ [Did ReceiveBytes (Ok (Some payload));
        Did (SendText ("Received "
                       ++ str_int (Z.of_nat (List.length payload))
                       ++ " bytes of audio data.")%string) (Ok None)]
  /\ option_map Z.of_int
       (NilZero.int_of_string (str_int (Z.of_nat (List.length payload))))
     = Some (Z.of_nat (List.length payload))
  /\ status (front ++ [Delivered (binary_frame payload)]) = Awaiting.
Proof.
  intros Hwait.
  destruct (run_continue front [Delivered (binary_frame payload)] Hwait)
    as (Htrace & Hstatus & _).
  rewrite Htrace, Hstatus. simpl. repeat split.
  apply str_int_decimal.
Qed.

(** The exchange of the test client: a 5-byte frame, then a 3-byte frame. *)
Lemma ack_text_exact_witness :
  trace ([] ++ [Delivered (binary_frame
                  [Byte.x00; Byte.x01; Byte.x02; Byte.x03; Byte.x04])])
  = trace []
    ++ [Did ReceiveBytes
          (Ok (Some [Byte.x00; Byte.x01; Byte.x02; Byte.x03; Byte.x04]));
        Did (SendText "Received 5 bytes of audio data.") (Ok None)]
  /\ trace (audio [[Byte.x00; Byte.x01; Byte.x02; Byte.x03; Byte.x04]]
            ++ [Delivered (binary_frame [Byte.x10; Byte.x20; Byte.x30])])
     = trace (audio [[Byte.x00; Byte.x01; Byte.x02; Byte.x03; Byte.x04]])
       ++ [Did ReceiveBytes (Ok (Some [Byte.x10; Byte.x20; Byte.x30]));
           Did (SendText "Received 3 bytes of audio data.") (Ok None)].
Proof.
  split.
  - exact (proj1 (ack_text_exact []
             [Byte.x00; Byte.x01; Byte.x02; Byte.x03; Byte.x04]
             eq_refl)).
  - exact (proj1 (ack_text_exact
             (audio [[Byte.x00; Byte.x01; Byte.x02; Byte.x03; Byte.x04]])
             [Byte.x10; Byte.x20; Byte.x30]
             eq_refl)).
Defined.

(** C3: on every connection the first thing the server does is accept, and
    the second is send the text frame "Connection established. Send audio
    data as binary messages."; every call to receive_bytes comes after
    both.  With a client that sends nothing these are the only two events,
    and the handler is waiting. *)
Theorem welcome_sent_first (msgs : list incoming) :
  (exists rest : list event,
     trace msgs
     = Did Accept (Ok None)
       :: Did (SendText
                 "Connection established. Send audio data as binary messages.")
              (Ok None)
       :: rest
     /\ rest = loop_events msgs ++ handler_events (loop_exit msgs))
  /\ trace []
     = [Did Accept (Ok None);
        Did (SendText
               "Connection established. Send audio data as binary messages.")
            (Ok None)]
  /\ status [] = Awaiting.
Proof.
  repeat split; try reflexivity.
  exists (loop_events msgs ++ handler_events (loop_exit msgs)).
  split; [| reflexivity]. now rewrite trace_spec.
Qed.

(** C4, as stated, fails: whatever the maximum chunk size is taken to be,
    a frame one byte longer is acknowledged as received, with its full
    length, and the handler goes on waiting for frames. *)
Lemma oversized_frame_is_acknowledged :
  ~ exists max : nat,
      forall payload : bytes,
        (max < List.length payload)%nat ->
        ~ In (response_msg (Z.of_nat (List.length payload)))
             (acks [Delivered (binary_frame payload)])
        /\ status [Delivered (binary_frame payload)] <> Awaiting.
Proof.
  intros [max H].
  destruct (H (repeat Byte.x00 (S max))) as [Hack _].
  - rewrite repeat_length. lia.
  - apply Hack. unfold acks. rewrite trace_spec. simpl. now left.
Qed.

(** C4, amended: the handler has no maximum chunk size.  A binary frame of
    any length, however large, is acknowledged with its full byte count
    (nothing is truncated), the connection is not closed and the handler
    goes back to waiting for the next frame. *)
Theorem frame_of_any_length_acknowledged
    (max : nat) (front : list incoming) (payload : bytes) :
  status front = Awaiting ->
  (max < List.length payload)%nat ->
  acks (front ++ [Delivered (binary_frame payload)])
  = acks front ++ [response_msg (Z.of_nat (List.length payload))]
  /\ byte_count_of (response_msg (Z.of_nat (List.length payload)))
     = Some (Z.of_nat (List.length payload))
  /\ writes (trace (front ++ [Delivered (binary_frame payload)]))
     = writes (trace front)
       ++ [Did (SendText (response_msg (Z.of_nat (List.length payload))))
               (Ok None)]
  /\ status (front ++ [Delivered (binary_frame payload)]) = Awaiting.
Proof.
  intros Hwait _.
  destruct (run_continue front [Delivered (binary_frame payload)] Hwait)
    as (Htrace & Hstatus & _).
  rewrite (acks_continue _ _ Hwait), Htrace, Hstatus. simpl.
  repeat split.
  - apply byte_count_of_response_msg. lia.
  - unfold writes. now rewrite filter_app.
Qed.

Lemma frame_of_any_length_acknowledged_witness :
  acks ([] ++ [Delivered (binary_frame (repeat Byte.xff 17))])
  = acks [] ++ ["Received 17 bytes of audio data."]
  /\ status ([] ++ [Delivered (binary_frame (repeat Byte.xff 17))])
     = Awaiting.
Proof.
  destruct (frame_of_any_length_acknowledged 16 []
              (repeat Byte.xff 17) eq_refl) as (Hacks & _ & _ & Hstatus).
  - simpl. lia.
  - split; [exact Hacks | exact Hstatus].
Defined.



(** C6, as stated, fails: a text frame that arrives on a fresh connection
    is not ignored. *)
Lemma text_frame_not_ignored :
  ~ ignored [] (Delivered (text_frame "hello")).
Proof.
  unfold ignored. intros [Hstatus _]. vm_compute in Hstatus. discriminate.
Qed.

(** C6, amended: the handler has no branch for text frames.  When it is
    waiting for a frame and a text frame arrives, [receive_bytes] raises
    [KeyError('bytes')] (or returns [None], on which [len] raises
    [TypeError]); the server sends the text frame "An error occurred: ..."
    with that exception's message, closes the connection with code 1011 and
    reason "Internal server error", and the receive loop ends. *)
Theorem text_frame_ends_session
    (front : list incoming) (m : asgi_message) (rest : list incoming) :
  status front = Awaiting ->
  is_text_frame m = true ->
  exists e_str : string,
    (e_str = "'bytes'" \/ e_str = "object of type 'NoneType' has no len()")
    /\ trace (front ++ Delivered m :: rest)
       = trace front
         ++ [Did ReceiveBytes (receive_bytes_of m);
             Did (SendText ("An error occurred: " ++ e_str)%string) (Ok None);
             Did (Close 1011 "Internal server error") (Ok None)]
    /\ status (front ++ Delivered m :: rest) = Returned tt
    /\ ~ ignored front (Delivered m).
Proof.
  intros Hwait Htext.
  assert (Hraise : exists cls e_str,
             (e_str = "'bytes'"
              \/ e_str = "object of type 'NoneType' has no len()")
             /\ round_raises (Delivered m) = Some (PyException cls e_str)).
  { destruct m as [[[d |] |] [[t |] |] | code]; try discriminate Htext.
    - exists "TypeError", "object of type 'NoneType' has no len()". auto.
    - exists "KeyError", "'bytes'". auto. }
  destruct Hraise as (cls & e_str & Hstr & Hraise).
  exists e_str. split; [exact Hstr |].
  destruct (error_round_spec front (Delivered m))
    with (rest := rest) (cls := cls) (e_str := e_str)
    as (Htrace & Hstatus); auto.
  repeat split; auto.
  intros [Hignored _].
  destruct (error_round_spec front (Delivered m))
    with (rest := @nil incoming) (cls := cls) (e_str := e_str)
    as (_ & Hreturned); auto.
  rewrite Hreturned in Hignored. discriminate.
Qed.

Lemma text_frame_ends_session_witness :
  exists e_str : string,
    (e_str = "'bytes'" \/ e_str = "object of type 'NoneType' has no len()")
    /\ trace (audio [[Byte.x07]] ++ Delivered (text_frame "stop") :: [])
       = trace (audio [[Byte.x07]])
         ++ [Did ReceiveBytes (receive_bytes_of (text_frame "stop"));
             Did (SendText ("An error occurred: " ++ e_str)%string) (Ok None);
             Did (Close 1011 "Internal server error") (Ok None)]
    /\ status (audio [[Byte.x07]] ++ Delivered (text_frame "stop") :: [])
       = Returned tt
    /\ ~ ignored (audio [[Byte.x07]]) (Delivered (text_frame "stop")).
Proof.
  exact (text_frame_ends_session (audio [[Byte.x07]]) (text_frame "stop") []
           eq_refl eq_refl).
Defined.

(** C7: whenever the handler is waiting for a frame and [receive_bytes]
    raises [WebSocketDisconnect], the handler prints one line and returns
    normally.  After the disconnect it calls nothing on the connection: the
    frames written during the whole run are those written before the
    disconnect, no close frame among them, and whatever else was queued
    stays unread. *)
Theorem no_writes_after_disconnect
    (front : list incoming) (i : incoming) (code : Z)
    (rest : list incoming) :
  status front = Awaiting ->
  received i = Err (WebSocketDisconnect code) ->
  trace (front ++ i :: rest)
  = trace front
    ++ [Did ReceiveBytes (Err (WebSocketDisconnect code));
        Printed "Client disconnected."]
  /\ writes (trace (front ++ i :: rest)) = writes (trace front)
  /\ status (front ++ i :: rest) = Returned tt
  /\ inbox (snd (run (front ++ i :: rest))) = rest.
Proof.
  intros Hwait Hdisc.
  destruct (run_continue front (i :: rest) Hwait) as (Htrace & Hstatus & Hun).
  assert (Hraise : round_raises i = Some (WebSocketDisconnect code))
    by (unfold round_raises; now rewrite Hdisc).
  destruct (loop_raising i rest _ Hraise) as (Hev & Hexit & Hunread).
  rewrite Htrace, Hstatus, Hun, Hev, Hexit, Hunread, Hdisc. simpl.
  repeat split.
  unfold writes. rewrite filter_app. simpl. now rewrite app_nil_r.
Qed.

Lemma no_writes_after_disconnect_witness :
  trace (audio [[Byte.x00; Byte.x01]]
         ++ Delivered (websocket_disconnect 1000)
            :: [Delivered (binary_frame [Byte.x02])])
  = trace (audio [[Byte.x00; Byte.x01]])
    ++ [Did ReceiveBytes (Err (WebSocketDisconnect 1000));
        Printed "Client disconnected."]
  /\ writes (trace (audio [[Byte.x00; Byte.x01]]
                    ++ Delivered (websocket_disconnect 1000)
                       :: [Delivered (binary_frame [Byte.x02])]))
     = writes (trace (audio [[Byte.x00; Byte.x01]]))
  /\ status (audio [[Byte.x00; Byte.x01]]
             ++ Delivered (websocket_disconnect 1000)
                :: [Delivered (binary_frame [Byte.x02])])
     = Returned tt.
Proof.
  destruct (no_writes_after_disconnect
              (audio [[Byte.x00; Byte.x01]])
              (Delivered (websocket_disconnect 1000)) 1000
              [Delivered (binary_frame [Byte.x02])] eq_refl eq_refl)
    as (Htrace & Hwrites & Hstatus & _).
  repeat split; assumption.
Defined.



(** C9: a binary frame of length 0 is acknowledged like any other: when
    the handler is waiting for a frame and an empty binary frame arrives,
    the server sends "Received 0 bytes of audio data.", writes nothing else,
    and goes back to waiting; the frame that comes after it is acknowledged
    in turn. *)
Theorem empty_frame_acknowledged (front : list incoming) :
  status front = Awaiting ->
  trace (front ++ [Delivered (binary_frame [])])
  = trace front
    ++ [Did ReceiveBytes (Ok (Some []));
        Did (SendText "Received 0 bytes of audio data.") (Ok None)]
  /\ status (front ++ [Delivered (binary_frame [])]) = Awaiting
  /\ forall next : bytes,
       acks (front ++ [Delivered (binary_frame []);
                       Delivered (binary_frame next)])
       = acks front
         ++ ["Received 0 bytes of audio data.";
             response_msg (Z.of_nat (List.length next))]
       /\ status (front ++ [Delivered (binary_frame []);
                            Delivered (binary_frame next)])
          = Awaiting.
Proof.
  intros Hwait.
  destruct (run_continue front [Delivered (binary_frame [])] Hwait)
    as (Htrace & Hstatus & _).
  rewrite Htrace, Hstatus. repeat split.
  - rewrite (acks_continue _ _ Hwait). reflexivity.
  - destruct (run_continue front
                [Delivered (binary_frame []); Delivered (binary_frame next)]
                Hwait) as (_ & Hstatus2 & _).
    rewrite Hstatus2. reflexivity.
Qed.

Lemma empty_frame_acknowledged_witness :
  trace ([] ++ [Delivered (binary_frame [])])
  = trace []
    ++ [Did ReceiveBytes (Ok (Some []));
        Did (SendText "Received 0 bytes of audio data.") (Ok None)]
  /\ status ([] ++ [Delivered (binary_frame [])]) = Awaiting.
Proof.
  destruct (empty_frame_acknowledged [] eq_refl) as (Htrace & Hstatus & _).
  split; assumption.
Defined.

(** C10: what the server writes depends on the lengths of the binary frames
    only.  Two clients whose frames have the same lengths, one by one, see
    the same text frames from the server, whatever the bytes in the frames;
    in particular two frames of equal length get the same acknowledgment. *)
Theorem acks_depend_on_length_only (frames1 frames2 : list bytes) :
  map (@List.length Byte.byte) frames1 = map (@List.length Byte.byte) frames2 ->
  writes (trace (audio frames1)) = writes (trace (audio frames2))
  /\ acks (audio frames1) = acks (audio frames2)
  /\ status (audio frames1) = status (audio frames2).
Proof.
  intros Hlen.
  assert (Hw : forall frames,
             writes (trace (audio frames))
             = Did (SendText welcome) (Ok None)
               :: map (fun n => Did (SendText (response_msg (Z.of_nat n)))
                                    (Ok None))
                      (map (@List.length Byte.byte) frames)).
  { intros frames. rewrite trace_spec.
    destruct (loop_audio frames) as [-> _]. simpl. rewrite app_nil_r.
    unfold writes. simpl. f_equal. apply writes_audio. }
  assert (Ha : forall frames,
             acks (audio frames)
             = map (fun n => response_msg (Z.of_nat n))
                   (map (@List.length Byte.byte) frames)).
  { intros frames.
    destruct (acks_audio frames) as [-> _]. now rewrite map_map. }
  rewrite !Hw, !Ha, Hlen. repeat split.
  destruct (acks_audio frames1) as (_ & ->).
  destruct (acks_audio frames2) as (_ & ->). reflexivity.
Qed.

Lemma acks_depend_on_length_only_witness :
  writes (trace (audio [[Byte.x00; Byte.x01]; [Byte.xff]]))
  = writes (trace (audio [[Byte.xaa; Byte.xbb]; [Byte.x10]]))
  /\ acks (audio [[Byte.x00; Byte.x01]; [Byte.xff]])
     = acks (audio [[Byte.xaa; Byte.xbb]; [Byte.x10]]).
Proof.
  destruct (acks_depend_on_length_only
              [[Byte.x00; Byte.x01]; [Byte.xff]]
              [[Byte.xaa; Byte.xbb]; [Byte.x10]] eq_refl)
    as (Hwrites & Hacks & _).
  split; assumption.
Defined.

(** ** Further properties of the handler *)

Lemma loop_exit_cases (msgs : list incoming) :
  loop_exit msgs = Awaiting \/ exists e, loop_exit msgs = Raised e.
Proof.
  induction msgs as [| i rest IH]; simpl; [now left |].
  destruct (received i) as [[d |] | e]; eauto.
Qed.


Lemma loop_events_no_close (msgs : list incoming) (c : Z) (r : string)
    (o : outcome) :
  ~ In (Did (Close c r) o) (loop_events msgs).
Proof.
  induction msgs as [| i rest IH]; simpl; [tauto |].
  intros [H | H]; [discriminate |].
  destruct (received i) as [[d |] | e]; simpl in H; try tauto.
  destruct H as [H | H]; [discriminate | tauto].
Qed.

Lemma receives_app (l1 l2 : list event) :
  receives (l1 ++ l2) = (receives l1 + receives l2)%nat.
Proof.
  induction l1 as [| ev l1 IH]; simpl; [reflexivity |].
  destruct ev as [[| s | | c r] o | line]; simpl; now rewrite ?IH.
Qed.

Lemma loop_counts (msgs : list incoming) :
  (receives (loop_events msgs) <= List.length msgs)%nat
  /\ match loop_exit msgs with
     | Awaiting =>
         receives (loop_events msgs)
         = List.length (sent_texts (loop_events msgs))
     | Raised _ =>
         receives (loop_events msgs)
         = S (List.length (sent_texts (loop_events msgs)))
     | _ => False
     end.
Proof.
  induction msgs as [| i rest [IHle IHeq]]; simpl; [auto |].
  destruct (received i) as [[d |] | e]; simpl; split; auto; try lia.
  destruct (loop_exit rest); auto.
Qed.

Lemma handler_events_counts (r : result unit) :
  receives (handler_events r) = O
  /\ (List.length (sent_texts (handler_events r)) <= 1)%nat
  /\ (r = Awaiting -> sent_texts (handler_events r) = []).
Proof.
  destruct r as [[] | [c | cls s | cls] | |]; simpl; repeat split;
    auto; discriminate.
Qed.

Lemma map_length_injective (g : nat -> option Z) (frames1 : list bytes) :
  (forall n m, g n = g m -> n = m) ->
  forall frames2 : list bytes,
    map (fun d => g (List.length d)) frames1
    = map (fun d => g (List.length d)) frames2 ->
    map (@List.length Byte.byte) frames1
    = map (@List.length Byte.byte) frames2.
Proof.
  intros Hinj.
  induction frames1 as [| d1 frames1 IH]; intros [| d2 frames2]; simpl;
    try discriminate; [reflexivity |].
  intros [= Hd Hrest]. f_equal; auto.
Qed.

(** X1: no [Exception] ever leaves the handler.  Whatever the client
    sends, the handler ends up waiting in [receive_bytes], or it has
    returned normally, or an exception that is not an [Exception] (a
    cancellation) has passed through both [except] clauses. *)
Theorem only_base_exceptions_escape (msgs : list incoming) :
  status msgs = Awaiting
  \/ status msgs = Returned tt
  \/ exists cls, status msgs = Raised (PyBaseException cls).
Proof.
  rewrite status_spec.
  destruct (loop_exit_cases msgs) as [-> | [[c | cls s | cls] ->]]; simpl;
    eauto.
Qed.

(** X2: an exception that is not an [Exception], thrown into the handler
    while it waits in [receive_bytes], is caught by neither [except]
    clause: it leaves the handler, and the handler writes no error frame
    and no close frame on its way out. *)
Theorem base_exception_propagates_silently
    (front : list incoming) (i : incoming) (cls : string)
    (rest : list incoming) :
  status front = Awaiting ->
  received i = Err (PyBaseException cls) ->
  trace (front ++ i :: rest)
  = trace front ++ [Did ReceiveBytes (Err (PyBaseException cls))]
  /\ writes (trace (front ++ i :: rest)) = writes (trace front)
  /\ status (front ++ i :: rest) = Raised (PyBaseException cls).
Proof.
  intros Hwait Hthrown.
  destruct (run_continue front (i :: rest) Hwait) as (Htrace & Hstatus & _).
  assert (Hraise : round_raises i = Some (PyBaseException cls))
    by (unfold round_raises; now rewrite Hthrown).
  destruct (loop_raising i rest _ Hraise) as (Hev & Hexit & _).
  rewrite Htrace, Hstatus, Hev, Hexit, Hthrown. simpl.
  repeat split.
  unfold writes. rewrite filter_app. simpl. now rewrite app_nil_r.
Qed.

Lemma base_exception_propagates_silently_witness :
  trace (audio [[Byte.x01]] ++ Thrown (PyBaseException "CancelledError") :: [])
  = trace (audio [[Byte.x01]])
    ++ [Did ReceiveBytes (Err (PyBaseException "CancelledError"))]
  /\ writes (trace (audio [[Byte.x01]]
                    ++ Thrown (PyBaseException "CancelledError") :: []))
     = writes (trace (audio [[Byte.x01]]))
  /\ status (audio [[Byte.x01]]
             ++ Thrown (PyBaseException "CancelledError") :: [])
     = Raised (PyBaseException "CancelledError").
Proof.
  exact (base_exception_propagates_silently (audio [[Byte.x01]])
           (Thrown (PyBaseException "CancelledError")) "CancelledError" []
           eq_refl eq_refl).
Defined.

(** X3: the handler closes the connection only from its error branch.  If
    a close frame appears in a run, its code is 1011 and its reason is
    "Internal server error", it is the last thing the handler did (nothing
    is written after it), the frame before it is the error report, and the
    handler has returned. *)
Theorem close_is_1011_and_last
    (msgs : list incoming) (c : Z) (r : string) (o : outcome) :
  In (Did (Close c r) o) (trace msgs) ->
  c = 1011
  /\ r = "Internal server error"%string
  /\ (exists (before : list event) (e_str : string),
        trace msgs
        = before
          ++ [Did (SendText ("An error occurred: " ++ e_str)%string) (Ok None);
              Did (Close c r) o])
  /\ status msgs = Returned tt.
Proof.
  rewrite trace_spec, status_spec. intros Hin.
  apply in_app_or in Hin. destruct Hin as [Hin | Hin].
  { simpl in Hin. destruct Hin as [H | [H | []]]; discriminate. }
  apply in_app_or in Hin. destruct Hin as [Hin | Hin].
  { now apply loop_events_no_close in Hin. }
  destruct (loop_exit msgs) as [[] | [code | cls s | cls] | |];
    simpl in Hin; try tauto.
  - destruct Hin as [H | []]; discriminate.
  - destruct Hin as [H | [H | []]]; [discriminate |].
    injection H as <- <- <-. repeat split.
    exists (handshake ++ loop_events msgs), s.
    now rewrite <- app_assoc.
Qed.

Lemma close_is_1011_and_last_witness :
  In (Did (Close 1011 "Internal server error") (Ok None))
     (trace [Delivered (text_frame "hi")])
  /\ (exists (before : list event) (e_str : string),
        trace [Delivered (text_frame "hi")]
        = before
          ++ [Did (SendText ("An error occurred: " ++ e_str)%string) (Ok None);
              Did (Close 1011 "Internal server error") (Ok None)])
  /\ status [Delivered (text_frame "hi")] = Returned tt.
Proof.
  assert (Hin : In (Did (Close 1011 "Internal server error") (Ok None))
                   (trace [Delivered (text_frame "hi")])).
  { vm_compute. right. right. right. right. left. reflexivity. }
  destruct (close_is_1011_and_last [Delivered (text_frame "hi")]
              1011 "Internal server error" (Ok None) Hin)
    as (_ & _ & Hlast & Hstatus).
  repeat split; assumption.
Defined.

(** X4: the handler speaks only when spoken to, and answers before it
    listens again.  In every run it has called [receive_bytes] at most once
    per event the client delivered; the text frames it has sent are never
    fewer than its receives and at most one more (the welcome). *)
Theorem one_reply_per_receive (msgs : list incoming) :
  (receives (trace msgs) <= List.length msgs)%nat
  /\ (receives (trace msgs) <= List.length (sent_texts (trace msgs)))%nat
  /\ (List.length (sent_texts (trace msgs)) <= S (receives (trace msgs)))%nat.
Proof.
  rewrite trace_spec.
  rewrite !receives_app, !sent_texts_app, !length_app.
  destruct (loop_counts msgs) as [Hle Heq].
  destruct (handler_events_counts (loop_exit msgs)) as (Hr & Hs & Hw).
  rewrite Hr. simpl.
  destruct (loop_exit msgs) as [[] | e | |] eqn:Hexit; try tauto.
  - destruct e as [c | cls s | cls]; simpl in *; lia.
  - rewrite Hw by reflexivity. simpl. lia.
Qed.




(** X7: the acknowledgments tell the client the lengths of its frames and
    nothing else: two sequences of binary frames draw the same
    acknowledgments exactly when their frames have the same lengths, one by
    one.  In particular distinct lengths never share an acknowledgment. *)
Theorem acks_reveal_exactly_the_lengths (frames1 frames2 : list bytes) :
  acks (audio frames1) = acks (audio frames2)
  <-> map (@List.length Byte.byte) frames1
      = map (@List.length Byte.byte) frames2.
Proof.
  destruct (acks_audio frames1) as [-> _].
  destruct (acks_audio frames2) as [-> _].
  split.
  - intros Hacks.
    apply (map_length_injective (fun n => Some (Z.of_nat n))).
    + intros n m [= H]. lia.
    + apply (f_equal (map byte_count_of)) in Hacks.
      rewrite !map_map in Hacks.
      erewrite (map_ext _ (fun d => Some (Z.of_nat (List.length d))))
        in Hacks by (intros d; apply byte_count_of_response_msg; lia).
      symmetry in Hacks.
      erewrite (map_ext _ (fun d => Some (Z.of_nat (List.length d))))
        in Hacks by (intros d; apply byte_count_of_response_msg; lia).
      now symmetry.
  - intros Hlen.
    rewrite <- (map_map (@List.length Byte.byte)
                  (fun n => response_msg (Z.of_nat n)) frames1).
    rewrite <- (map_map (@List.length Byte.byte)
                  (fun n => response_msg (Z.of_nat n)) frames2).
    now rewrite Hlen.
Qed.

(** X8: a client can tell the three kinds of text frame apart by their
    text alone: an acknowledgment is never the welcome and never an error
    report, whatever the byte count and whatever the error message, and
    reading a byte count off the welcome or off an error report fails. *)
Theorem frame_kinds_distinguishable (n : Z) (e_str : string) :
  response_msg n <> welcome
  /\ response_msg n <> error_msg e_str
  /\ error_msg e_str <> welcome
  /\ byte_count_of welcome = None
  /\ byte_count_of (error_msg e_str) = None.
Proof.
  unfold response_msg, error_msg, welcome. simpl.
  repeat split; try discriminate; reflexivity.
Qed.

(** X9: the handler is still serving (waiting in [receive_bytes], nothing
    closed) exactly when every event delivered so far was a frame that
    carried bytes.  One event of any other kind (a text frame, a
    disconnect, an exception) ends the loop for good. *)
Theorem still_serving_iff_all_binary (msgs : list incoming) :
  status msgs = Awaiting
  <-> Forall (fun i => exists d, received i = Ok (Some d)) msgs.
Proof.
  rewrite status_awaiting.
  induction msgs as [| i rest IH]; simpl.
  - split; auto.
  - split.
    + intros Hexit.
      destruct (received i) as [[d |] | e] eqn:Hi; try discriminate.
      constructor; [eauto | now apply IH].
    + intros Hall. inversion Hall as [| ? ? [d Hd] Hrest]; subst.
      rewrite Hd. now apply IH.
Qed.


Lemma span_digits_all (d : Decimal.uint) :
  span_digits (NilEmpty.string_of_uint d)
  = (NilEmpty.string_of_uint d, EmptyString).
Proof.
  induction d; simpl; try reflexivity; now rewrite IHd.
Qed.

Lemma nzhead_no_leading_zero (d d' : Decimal.uint) :
  Decimal.nzhead d <> Decimal.D0 d'.
Proof.
  induction d; simpl; try discriminate. exact IHd.
Qed.

Lemma to_uint_no_leading_zero (p : positive) (d : Decimal.uint) :
  Pos.to_uint p <> Decimal.D0 d.
Proof.
  intros H.
  pose proof (DecimalPos.Unsigned.to_of (Pos.to_uint p)) as Hnorm.
  rewrite DecimalPos.Unsigned.of_to in Hnorm. simpl in Hnorm.
  rewrite H in Hnorm at 1. unfold Decimal.unorm in Hnorm.
  destruct (Decimal.nzhead (Pos.to_uint p)) eqn:Hnz;
    try discriminate Hnorm.
  - injection Hnorm as ->.
    now apply (DecimalPos.Unsigned.to_uint_nonzero p).
  - now apply (nzhead_no_leading_zero (Pos.to_uint p) u).
Qed.

Lemma string_of_uint_nonnil (d : Decimal.uint) :
  d <> Decimal.Nil ->
  NilZero.string_of_uint d = NilEmpty.string_of_uint d.
Proof. destruct d; [now intros [] | reflexivity ..]. Qed.

(** X11: the count in an acknowledgment is written the way Python writes
    an [int]: between "Received " and " bytes of audio data." stands a
    non-empty run of decimal digits, with no sign, and with a leading zero
    only when the frame was empty. *)
Theorem ack_count_is_canonical_decimal (payload : bytes) :
  exists digits : string,
    response_msg (Z.of_nat (List.length payload))
    = ("Received " ++ digits ++ " bytes of audio data.")%string
    /\ span_digits digits = (digits, EmptyString)
    /\ digits <> EmptyString
    /\ (forall rest : string, digits = String "0" rest -> payload = []).
Proof.
  exists (str_int (Z.of_nat (List.length payload))).
  split; [reflexivity |].
  unfold str_int.
  destruct payload as [| b payload]; [simpl; repeat split; discriminate |].
  change (Z.of_nat (List.length (b :: payload)))
    with (Z.pos (Pos.of_succ_nat (List.length payload))).
  set (p := Pos.of_succ_nat (List.length payload)).
  simpl Z.to_int. simpl NilZero.string_of_int.
  pose proof (DecimalPos.Unsigned.to_uint_nonnil p) as Hnil.
  pose proof (to_uint_no_leading_zero p) as Hzero.
  rewrite (string_of_uint_nonnil _ Hnil).
  repeat split.
  - apply span_digits_all.
  - destruct (Pos.to_uint p); try discriminate. now destruct Hnil.
  - intros rest Hrest.
    destruct (Pos.to_uint p) as [| u | u | u | u | u | u | u | u | u | u];
      try discriminate Hrest.
    now destruct (Hzero u).
Qed.

(** ** The test client against the handler *)

Lemma nth_error_last {A : Type} (l : list A) (x : A) :
  nth_error (l ++ [x]) (List.length l) = Some x.
Proof.
  rewrite nth_error_app2 by lia. now rewrite Nat.sub_diag.
Qed.

(** X12: request and response.  A client that has read every text frame
    the server sent so far, on a connection the handler is still serving,
    blocks in [recv] if it has sent nothing new; once it sends a binary
    frame, its next [recv] returns the acknowledgment of that very frame,
    and it is again up to date. *)
Theorem send_then_recv_gets_the_ack (st : client) (data : bytes) :
  status (sent st) = Awaiting ->
  nread st = List.length (sent_texts (trace (sent st))) ->
  recv st = (Blocked, st)
  /\ cbind (send data) (fun _ => recv) st
     = (Done (response_msg (Z.of_nat (List.length data))),
        mkClient (sent st ++ [Delivered (binary_frame data)])
          (S (nread st)) (stdout st))
  /\ S (nread st)
     = List.length
         (sent_texts (trace (sent st ++ [Delivered (binary_frame data)])))
  /\ status (sent st ++ [Delivered (binary_frame data)]) = Awaiting.
Proof.
  intros Hwait Hread.
  destruct (run_continue (sent st) [Delivered (binary_frame data)] Hwait)
    as (Htrace & Hstatus & _).
  assert (Htexts :
            sent_texts (trace (sent st ++ [Delivered (binary_frame data)]))
            = sent_texts (trace (sent st))
              ++ [response_msg (Z.of_nat (List.length data))]).
  { rewrite Htrace, sent_texts_app. reflexivity. }
  repeat split.
  - unfold recv. rewrite Hread.
    rewrite (proj2 (nth_error_None _ _)) by lia. now rewrite Hwait.
  - unfold cbind, send, recv. simpl.
    rewrite Htexts, Hread. now rewrite nth_error_last.
  - rewrite Htexts, length_app, Hread. simpl. lia.
  - rewrite Hstatus. reflexivity.
Qed.

Lemma send_then_recv_gets_the_ack_witness :
  recv (mkClient [] 1 []) = (Blocked, mkClient [] 1 [])
  /\ cbind (send [Byte.x2a; Byte.x2b]) (fun _ => recv) (mkClient [] 1 [])
     = (Done "Received 2 bytes of audio data.",
        mkClient ([] ++ [Delivered (binary_frame [Byte.x2a; Byte.x2b])])
          2 []).
Proof.
  destruct (send_then_recv_gets_the_ack (mkClient [] 1 [])
              [Byte.x2a; Byte.x2b] eq_refl eq_refl)
    as (Hblocked & Hack & _).
  split; [exact Hblocked | exact Hack].
Defined.

(** X13: the test client run against the handler.  It never blocks; it
    prints the welcome and the acknowledgments of its 5-byte and its 3-byte
    frame, in that order, and has then read everything the server wrote.
    On its close the handler prints "Client disconnected." and returns,
    having written no error report and no close frame. *)
Theorem test_client_session :
  exists st : client,
    test_client (mkClient [] 0 []) = (Done tt, st)
    /\ stdout st
       = ["Server: Connection established. Send audio data as binary messages.";
          "Server: Received 5 bytes of audio data.";
          "Server: Received 3 bytes of audio data."]%string
    /\ nread st = List.length (sent_texts (trace (sent st)))
    /\ status (sent st) = Returned tt
    /\ writes (trace (sent st))
       = [Did (SendText welcome) (Ok None);
          Did (SendText "Received 5 bytes of audio data.") (Ok None);
          Did (SendText "Received 3 bytes of audio data.") (Ok None)]
    /\ last (trace (sent st)) (Printed EmptyString)
       = Printed "Client disconnected.".
Proof.
  eexists. split; [vm_compute; reflexivity |].
  vm_compute. repeat split.
Qed.
